(** * versioner: configuration matrix, sanity check and platform cross-check

    A shallow embedding of [tools/versioner/src/versioner.cpp]:
    [generateCompilationTypes], [checkSymbol], [sanityCheck],
    [checkVersions] and the tail of [main] that turns the results of the
    phases into the exit status.

    [std::set] is modelled by [gset], [std::map] by [gmap], [int] by [Z]
    (the code only compares API levels, it never does arithmetic on them),
    and a call of [errx(1, ...)] by the [Exit 1] outcome of a small error
    monad.  A loop over a container is a fold over its elements; the folds
    visit them in the order of [gset] and [gmap], not in the sorted order
    of the C++ containers.  The order decides which message is printed
    first and at which symbol [errx] is reached; the messages are not
    modelled, and the results below are characterised by membership. *)

From stdpp Require Import base gmap sets list strings fin_maps fin_sets.
From Stdlib Require Import ZArith Lia.

Local Open Scope Z_scope.

(** ** Process outcomes: a value, or the process ended by [errx] *)

Inductive outcome (A : Type) : Type :=
| Ret (a : A)
| Exit (status : Z).
Arguments Ret {A} a.
Arguments Exit {A} status.

#[global] Instance outcome_ret : MRet outcome := λ A a, Ret a.

#[global] Instance outcome_bind : MBind outcome := λ A B k m,
  match m with
  | Ret a => k a
  | Exit status => Exit status
  end.

(** [errx(1, ...)] *)
Definition errx {A : Type} (status : Z) : outcome A := Exit status.

Section Versioner.

(** [Arch.h] is not part of the sources at hand: the architectures are any
    type that can be the element of a [std::set] and the key of a
    [std::map], and [arch_min_api] is any table. *)
Context {Arch : Type} {Arch_eq_dec : EqDecision Arch}
        {Arch_countable : Countable Arch}.

Class ArchTable : Type := {
  arch_min_api : Arch → Z;
  supported_archs : gset Arch;
  supported_levels : gset Z
}.
Context {arch_table : ArchTable}.

(** ** Compilation types *)

Record CompilationType : Type := mkCompilationType {
  arch : Arch;
  api_level : Z;
  file_offset_bits : Z
}.

#[global] Instance CompilationType_eq_dec : EqDecision CompilationType.
Proof. solve_decision. Defined.

#[global] Instance CompilationType_countable : Countable CompilationType.
Proof.
  refine (inj_countable'
    (λ t, (arch t, api_level t, file_offset_bits t))
    (λ p, mkCompilationType p.1.1 p.1.2 p.2) _).
  by intros [].
Defined.

(** The innermost loop of [generateCompilationTypes]:
    [for (int file_offset_bits : { 32, 64 }) result.insert(type)]. *)
Definition insert_offsets (a : Arch) (level : Z)
    (result : gset CompilationType) : gset CompilationType :=
  foldl (λ result bits, {[ mkCompilationType a level bits ]} ∪ result)
        result [32; 64].

(** The loop over the selected levels, for one architecture. *)
Definition insert_levels (a : Arch) (selected_levels : gset Z)
    (result : gset CompilationType) : gset CompilationType :=
  let min_api := arch_min_api a in
  set_fold (λ level result,
              if bool_decide (level < min_api) then result (* continue *)
              else insert_offsets a level result)
           result selected_levels.

Definition generateCompilationTypes (selected_architectures : gset Arch)
    (selected_levels : gset Z) : gset CompilationType :=
  set_fold (λ a result, insert_levels a selected_levels result)
           ∅ selected_architectures.

(** ** The declaration database, as far as [versioner.cpp] uses it

    [DeclarationDatabase.h] is not part of the sources at hand.  The types
    below carry the fields that [versioner.cpp] reads; the operations on a
    single declaration and on availability values are parameters. *)

(** Modelled from the spec: the (introduced, deprecated, obsoleted) triple
    of an availability, with the "future" flag.  [versioner.cpp] reads
    [introduced] and [obsoleted] of the global and of the per-architecture
    values and [future] of the per-architecture values; [0] means "not set". *)
Record AvailabilityValues : Type := mkAvailabilityValues {
  future : bool;
  introduced : Z;
  deprecated : Z;
  obsoleted : Z
}.

(** Modelled from the spec: an Availability is a global triple plus an
    architecture-indexed map of per-architecture values
    ([symbol_availability.global_availability] and
    [symbol_availability.arch_availability[type.arch]] in the code). *)
Record DeclarationAvailability : Type := mkDeclarationAvailability {
  global_availability : AvailabilityValues;
  arch_availability : Arch → AvailabilityValues
}.

(** A default-constructed availability: nothing is set. *)
Definition no_values : AvailabilityValues := mkAvailabilityValues false 0 0 0.
Definition no_availability : DeclarationAvailability :=
  mkDeclarationAvailability no_values (λ _, no_values).

(** What [versioner.cpp] asks of one declaration and of an availability:
    [decl->is_definition]; [decl->calculateAvailability(&availability)],
    which fails with [None]; [availability.empty()]; and the union of two
    availability values, which fails with [None] when they disagree
    incompatibly. *)
Context {Declaration : Type}.

Class DeclarationOps : Type := {
  is_definition : Declaration → bool;
  Declaration_calculateAvailability :
    Declaration → option DeclarationAvailability;
  DeclarationAvailability_empty : DeclarationAvailability → bool;
  DeclarationAvailability_merge :
    DeclarationAvailability → DeclarationAvailability →
    option DeclarationAvailability
}.
Context {declaration_ops : DeclarationOps}.

(** Modelled from the spec: a Symbol owns the Declarations of one name,
    indexed by CompilationType, at most one per CompilationType. *)
Record Symbol : Type := mkSymbol {
  name : string;
  declarations : gmap CompilationType Declaration
}.

(** The declarations in the order the loops visit them
    ([decl_it.second] for [decl_it] in [symbol.declarations]). *)
Definition declarations_list (symbol : Symbol) : list Declaration :=
  (map_to_list (declarations symbol)).*2.

(** Modelled from the spec: [Symbol::calculateAvailability] is missing from
    the sources at hand; it unions the Availability of every Declaration
    belonging to the symbol, and fails if two declarations disagree
    incompatibly.  A Declaration whose own availability does not calculate
    has no Availability to add to the union; the spec names no other
    failure. *)
Definition Symbol_calculateAvailability (symbol : Symbol)
    : option DeclarationAvailability :=
  foldl (λ acc decl,
           availability ← acc;
           match Declaration_calculateAvailability decl with
           | None => Some availability
           | Some decl_availability =>
               DeclarationAvailability_merge availability decl_availability
           end)
        (Some no_availability) (declarations_list symbol).

(** Modelled from the spec: [Symbol::hasDeclaration] is missing from the
    sources at hand; it is the membership test by CompilationType. *)
Definition hasDeclaration (symbol : Symbol) (type : CompilationType) : bool :=
  bool_decide (is_Some (declarations symbol !! type)).

Record HeaderDatabase : Type := mkHeaderDatabase {
  symbols : gmap string Symbol
}.

(** ** The sanity check *)

(** The loop of [checkSymbol] over [symbol.declarations]; [false] is one of
    its three [return false], [true] is the loop running to its end. *)
Fixpoint checkSymbol_loop (decls : list Declaration)
    (inline_definition : option Declaration) : bool :=
  match decls with
  | [] => true
  | decl :: rest =>
      if is_definition decl && bool_decide (is_Some inline_definition)
      then false (* multiple definitions of symbol *)
      else
        let inline_definition :=
          if is_definition decl then Some decl else inline_definition in
        match Declaration_calculateAvailability decl with
        | None => false (* failed to calculate availability for declaration *)
        | Some availability =>
            if is_definition decl &&
               negb (DeclarationAvailability_empty availability)
            then false (* inline definition has non-empty versioning information *)
            else checkSymbol_loop rest inline_definition
        end
  end.

Definition checkSymbol (symbol : Symbol) : bool :=
  if checkSymbol_loop (declarations_list symbol) None then
    match Symbol_calculateAvailability symbol with
    | None => false (* inconsistent availability for symbol *)
    | Some _ => true
    end
  else false.

Definition sanityCheck (database : HeaderDatabase) : bool :=
  let error :=
    map_fold (λ _ symbol error,
                if negb (checkSymbol symbol) then true else error)
             false (symbols database) in
  negb error.

(** ** The check against the platform *)

(** Modelled from the spec: the PlatformSymbolDatabase maps a symbol name
    to the set of CompilationTypes under which the platform exports the
    symbol ([NdkSymbolDatabase] of [SymbolDatabase.h]). *)
Abbreviation NdkSymbolDatabase := (gmap string (gset CompilationType)).

(** The three local collections of [checkVersions]. *)
Record Divergences : Type := mkDivergences {
  completely_unavailable : gset string;
  missing_availability : gmap string (gset CompilationType);
  extra_availability : gmap string (gset CompilationType)
}.

(** [records[symbol_name].insert(type)] on a
    [std::map<std::string, std::set<CompilationType>>]. *)
Definition record (symbol_name : string) (type : CompilationType)
    (records : gmap string (gset CompilationType))
    : gmap string (gset CompilationType) :=
  <[symbol_name := {[ type ]} ∪ default ∅ (records !! symbol_name)]> records.

(** The body of the loop over [types] up to the comparison with the
    platform: [None] is the [continue] taken for a symbol that is "future"
    on the architecture of [type], [Some b] is the final value of
    [should_be_available]. *)
Definition should_be_available (symbol_availability : DeclarationAvailability)
    (symbol : Symbol) (type : CompilationType) : option bool :=
  let should_be_available := true in
  let global_availability := global_availability symbol_availability in
  let arch_availability := arch_availability symbol_availability (arch type) in
  let should_be_available :=
    if bool_decide (introduced global_availability ≠ 0) &&
       bool_decide (introduced global_availability > api_level type)
    then false else should_be_available in
  let should_be_available :=
    if bool_decide (introduced arch_availability ≠ 0) &&
       bool_decide (introduced arch_availability > api_level type)
    then false else should_be_available in
  let should_be_available :=
    if bool_decide (obsoleted global_availability ≠ 0) &&
       bool_decide (obsoleted global_availability ≤ api_level type)
    then false else should_be_available in
  let should_be_available :=
    if bool_decide (obsoleted arch_availability ≠ 0) &&
       bool_decide (obsoleted arch_availability ≤ api_level type)
    then false else should_be_available in
  if future arch_availability then None (* continue *)
  else
    let should_be_available :=
      if negb (hasDeclaration symbol type) then false
      else should_be_available in
    Some should_be_available.

(** One round of the loop over [types] for one symbol. *)
Definition check_type (symbol_name : string) (symbol : Symbol)
    (symbol_availability : DeclarationAvailability)
    (platform_availability : gset CompilationType)
    (type : CompilationType) (d : Divergences) : Divergences :=
  match should_be_available symbol_availability symbol type with
  | None => d
  | Some should_be_available =>
      let is_available := bool_decide (type ∈ platform_availability) in
      if bool_decide (should_be_available ≠ is_available) then
        if is_available then
          mkDivergences (completely_unavailable d) (missing_availability d)
            (record symbol_name type (extra_availability d))
        else
          mkDivergences (completely_unavailable d)
            (record symbol_name type (missing_availability d))
            (extra_availability d)
      else d
  end.

(** One round of the loop over [header_database->symbols]. *)
Definition check_symbol_versions (types : gset CompilationType)
    (symbol_database : NdkSymbolDatabase)
    (symbol_name : string) (symbol : Symbol) (d : Divergences)
    : outcome Divergences :=
  match Symbol_calculateAvailability symbol with
  | None => errx 1 (* failed to calculate symbol availability *)
  | Some symbol_availability =>
      match symbol_database !! symbol_name with
      | None =>
          mret (mkDivergences ({[ symbol_name ]} ∪ completely_unavailable d)
                  (missing_availability d) (extra_availability d))
      | Some platform_availability =>
          mret (set_fold (check_type symbol_name symbol symbol_availability
                            platform_availability) d types)
      end
  end.

(** The first loop of [checkVersions]. *)
Definition collect_divergences (types : gset CompilationType)
    (header_database : HeaderDatabase) (symbol_database : NdkSymbolDatabase)
    : outcome Divergences :=
  map_fold (λ symbol_name symbol acc,
              d ← acc;
              check_symbol_versions types symbol_database symbol_name symbol d)
           (mret (mkDivergences ∅ ∅ ∅)) (symbols header_database).

(** One round of the second loop of [checkVersions], over
    [symbol_database]; the state is the local [failed]. *)
Definition report_symbol (verbose : bool) (header_database : HeaderDatabase)
    (d : Divergences) (symbol_name : string) (failed : bool) : outcome bool :=
  let symbol_error := false in
  let '(symbol_error, failed) :=
    if bool_decide (is_Some (missing_availability d !! symbol_name))
    then (true, true) else (symbol_error, failed) in
  let '(symbol_error, failed) :=
    if verbose then
      if bool_decide (is_Some (extra_availability d !! symbol_name))
      then (true, true) else (symbol_error, failed)
    else (symbol_error, failed) in
  if symbol_error then
    match symbols header_database !! symbol_name with
    | None => errx 1 (* failed to find symbol in header database *)
    | Some _ => mret failed (* symbol_it->second.dump(cwd) *)
    end
  else mret failed.

Definition report_divergences (verbose : bool)
    (header_database : HeaderDatabase) (symbol_database : NdkSymbolDatabase)
    (d : Divergences) : outcome bool :=
  map_fold (λ symbol_name _ acc,
              failed ← acc;
              report_symbol verbose header_database d symbol_name failed)
           (mret false) symbol_database.

(** [arch_types] of [checkVersions]: built first, never read afterwards. *)
Definition arch_types (types : gset CompilationType)
    : gmap Arch (gset CompilationType) :=
  set_fold (λ type m, <[arch type := {[ type ]} ∪ default ∅ (m !! arch type)]> m)
           ∅ types.

(** [checkVersions]; [verbose] is the global flag of the program.  The
    result is [!failed], or the process has ended in [errx]. *)
Definition checkVersions (verbose : bool) (types : gset CompilationType)
    (header_database : HeaderDatabase) (symbol_database : NdkSymbolDatabase)
    : outcome bool :=
  let _ := arch_types types in
  d ← collect_divergences types header_database symbol_database;
  failed ← report_divergences verbose header_database symbol_database d;
  mret (negb failed).

(** ** The conditions the properties are stated with *)





(** Every symbol of the database has a merged availability. *)
Definition calculable (header_database : HeaderDatabase) : Prop :=
  map_Forall (λ _ symbol, is_Some (Symbol_calculateAvailability symbol))
             (symbols header_database).

(** [type] is in the set that [records] keeps for [symbol_name]. *)
Definition recorded (records : gmap string (gset CompilationType))
    (symbol_name : string) (type : CompilationType) : Prop :=
  ∃ types, records !! symbol_name = Some types ∧ type ∈ types.

(** The comparison of [checkVersions] for one symbol of both databases and
    one type of the matrix: the loop does not skip [type], the predicate is
    [should] and the platform exports the symbol under [type] exactly when
    [is_available] is set. *)
Definition compared (types : gset CompilationType)
    (header_database : HeaderDatabase) (symbol_database : NdkSymbolDatabase)
    (symbol_name : string) (type : CompilationType)
    (should is_available : bool) : Prop :=
  ∃ symbol symbol_availability platform_availability,
    symbols header_database !! symbol_name = Some symbol ∧
    Symbol_calculateAvailability symbol = Some symbol_availability ∧
    symbol_database !! symbol_name = Some platform_availability ∧
    type ∈ types ∧
    should_be_available symbol_availability symbol type = Some should ∧
    is_available = bool_decide (type ∈ platform_availability).

(** Missing availability: the predicate says available, the platform does
    not export the symbol. *)
Definition missing_divergence (types : gset CompilationType)
    (header_database : HeaderDatabase) (symbol_database : NdkSymbolDatabase)
    (symbol_name : string) (type : CompilationType) : Prop :=
  compared types header_database symbol_database symbol_name type true false.

(** Extra availability: the predicate says unavailable, the platform
    exports the symbol. *)
Definition extra_divergence (types : gset CompilationType)
    (header_database : HeaderDatabase) (symbol_database : NdkSymbolDatabase)
    (symbol_name : string) (type : CompilationType) : Prop :=
  compared types header_database symbol_database symbol_name type false true.

(** Every entry of [records] holds at least one type: an entry is only
    created by an insertion. *)
Definition populated (records : gmap string (gset CompilationType)) : Prop :=
  ∀ symbol_name, is_Some (records !! symbol_name) →
                 ∃ type, recorded records symbol_name type.

(** What the first loop of [checkVersions] has collected when it has run
    over the whole header database. *)
Definition collected (types : gset CompilationType)
    (header_database : HeaderDatabase) (symbol_database : NdkSymbolDatabase)
    (d : Divergences) : Prop :=
  (∀ symbol_name,
     symbol_name ∈ completely_unavailable d ↔
     is_Some (symbols header_database !! symbol_name) ∧
     symbol_database !! symbol_name = None) ∧
  (∀ symbol_name type,
     recorded (missing_availability d) symbol_name type ↔
     missing_divergence types header_database symbol_database symbol_name type) ∧
  (∀ symbol_name type,
     recorded (extra_availability d) symbol_name type ↔
     extra_divergence types header_database symbol_database symbol_name type) ∧
  populated (missing_availability d) ∧ populated (extra_availability d).

(** One symbol of both databases: what the loop over the types has added
    once it has run over the set [X]. *)
Definition types_checked (symbol_name : string) (symbol : Symbol)
    (symbol_availability : DeclarationAvailability)
    (platform_availability : gset CompilationType)
    (d : Divergences) (d' : Divergences)
    (X : gset CompilationType) : Prop :=
  completely_unavailable d' = completely_unavailable d ∧
  (∀ n t, recorded (missing_availability d') n t ↔
          recorded (missing_availability d) n t ∨
          (n = symbol_name ∧ t ∈ X ∧
           should_be_available symbol_availability symbol t = Some true ∧
           t ∉ platform_availability)) ∧
  (∀ n t, recorded (extra_availability d') n t ↔
          recorded (extra_availability d) n t ∨
          (n = symbol_name ∧ t ∈ X ∧
           should_be_available symbol_availability symbol t = Some false ∧
           t ∈ platform_availability)) ∧
  (populated (missing_availability d) → populated (missing_availability d')) ∧
  (populated (extra_availability d) → populated (extra_availability d')).

(** The second loop of [checkVersions] raises [failed] at [symbol_name]. *)
Definition flagged (verbose : bool) (d : Divergences) (symbol_name : string)
    : bool :=
  bool_decide (is_Some (missing_availability d !! symbol_name)) ||
  (verbose && bool_decide (is_Some (extra_availability d !! symbol_name))).

(** ** The tail of [main]

    The option loop of [main] and the checks that follow it (lines
    490-584) are not modelled; their results are the fields of [Options]:
    the checks have passed, so there are at most two paths.  What [main]
    calls from there on is a parameter: [parsePlatforms] and
    [preprocessHeaders], which are declared in headers that are not part
    of the sources at hand; the file system ([realpath], which is taken to
    resolve the path, and [stat]); and [compileHeaders] (lines 208-277),
    which runs the header parser on worker threads and of which [main]
    uses the two results only, the database and the flag stored through
    [failed]; an [err] or [errx] inside it ends the process with status 1
    and is not modelled. *)

Record Options : Type := mkOptions {
  opt_platform_dir : string;             (* -p, empty when absent *)
  opt_selected_architectures : gset Arch; (* -r *)
  opt_selected_levels : gset Z;           (* -a *)
  opt_dump : bool;                        (* -d *)
  opt_preprocessor_output_path : string;  (* -o, empty when absent *)
  opt_force : bool;                       (* -f *)
  opt_verbose : bool;                     (* -v *)
  opt_paths : list string;                (* argv[optind ..], at most two *)
  opt_top : string                        (* ANDROID_BUILD_TOP *)
}.

(** [compileHeaders] returns the database and the value of its local
    [errors], which it stores through [failed] only when it is set. *)
Class Collaborators : Type := {
  realpath : string → string;
  is_directory : string → bool;
  compileHeaders :
    gset CompilationType → string → string → HeaderDatabase * bool;
  parsePlatforms :
    gset CompilationType → string → outcome NdkSymbolDatabase;
  preprocessHeaders : string → string → HeaderDatabase → bool;
  (* Modelled from the spec: a failure to parse the platform data is
     fatal, and a fatal error ends the run with a nonzero status. *)
  parsePlatforms_fatal :
    ∀ types platform_dir status,
      parsePlatforms types platform_dir = Exit status → status ≠ 0
}.
Context {collaborators : Collaborators}.

(** [header_dir], [dependency_dir] and [platform_dir] after the
    autodetection of the paths. *)
Definition main_dirs (o : Options) : string * string * string :=
  match opt_paths o with
  | [] =>
      let versioner_dir := opt_top o +:+ "/bionic/tools/versioner" in
      (versioner_dir +:+ "/current", versioner_dir +:+ "/dependencies",
       if bool_decide (opt_platform_dir o = EmptyString)
       then versioner_dir +:+ "/platforms" else opt_platform_dir o)
  | header_path :: rest =>
      (realpath header_path,
       match rest with [deps_path] => deps_path | _ => EmptyString end,
       opt_platform_dir o)
  end.

Definition main_header_dir (o : Options) : string := (main_dirs o).1.1.
Definition main_dependency_dir (o : Options) : string := (main_dirs o).1.2.
Definition main_platform_dir (o : Options) : string := (main_dirs o).2.

Definition main_compilation_types (o : Options) : gset CompilationType :=
  let selected_levels :=
    if bool_decide (opt_selected_levels o = ∅) then supported_levels
    else opt_selected_levels o in
  let selected_architectures :=
    if bool_decide (opt_selected_architectures o = ∅) then supported_archs
    else opt_selected_architectures o in
  generateCompilationTypes selected_architectures selected_levels.

(** The two results of the call of [compileHeaders] in [main]. *)
Definition main_declaration_database (o : Options) : HeaderDatabase :=
  (compileHeaders (main_compilation_types o) (main_header_dir o)
     (main_dependency_dir o)).1.

Definition main_parse_errors (o : Options) : bool :=
  (compileHeaders (main_compilation_types o) (main_header_dir o)
     (main_dependency_dir o)).2.

(** [main] from the autodetection of the paths to [return failed]; the
    result is the value returned, as an [int]. *)
Definition main (o : Options) : outcome Z :=
  let header_dir := main_header_dir o in
  let dependency_dir := main_dependency_dir o in
  let platform_dir := main_platform_dir o in
  if negb (is_directory header_dir) then errx 1
  else
    let compilation_types := main_compilation_types o in
    symbol_database ←
      (if bool_decide (platform_dir ≠ EmptyString)
       then parsePlatforms compilation_types platform_dir
       else mret ∅);
    let failed := false in
    let '(declaration_database, errors) :=
      compileHeaders compilation_types header_dir dependency_dir in
    let failed := if errors then errors else failed in
    failed ←
      (if opt_dump o then mret failed
       else
         let failed :=
           if negb (sanityCheck declaration_database) then true else failed in
         if bool_decide (platform_dir ≠ EmptyString) then
           passed ← checkVersions (opt_verbose o) compilation_types
                      declaration_database symbol_database;
           mret (if negb passed then true else failed)
         else mret failed);
    let failed :=
      if bool_decide (opt_preprocessor_output_path o ≠ EmptyString) &&
         (opt_force o || negb failed)
      then negb (preprocessHeaders (opt_preprocessor_output_path o)
                   header_dir declaration_database)
      else failed in
    mret (if failed then 1 else 0).

End Versioner.

Arguments CompilationType : clear implicits.
Arguments DeclarationAvailability : clear implicits.
Arguments ArchTable Arch {_ _}.
Arguments DeclarationOps : clear implicits.
Arguments Symbol Arch {_ _} Declaration.
Arguments HeaderDatabase Arch {_ _} Declaration.
Arguments Divergences Arch {_ _}.
Arguments Options Arch {_ _}.
Arguments Collaborators Arch {_ _} Declaration.

(** The exit status of the process. *)
Definition exit_status (r : outcome Z) : Z :=
  match r with
  | Ret status => status
  | Exit status => status
  end.

(** * A concrete declaration database

    The architectures, declarations and availability operations of the
    scenarios of the spec, on which the properties below are run. *)

Module Scenario.

(** Modelled from the spec: "two architectures {A with min API 9, B with
    min API 21}" stand for the table of [Arch.h]. *)
Inductive Arch : Type := A | B.

#[global] Instance Arch_eq_dec : EqDecision Arch.
Proof. solve_decision. Defined.

#[global] Instance Arch_countable : Countable Arch.
Proof.
  refine (inj_countable' (λ a, match a with A => false | B => true end)
                         (λ b : bool, if b then B else A) _).
  by intros [].
Defined.

#[global] Instance arch_table : ArchTable Arch := {|
  arch_min_api a := match a with A => 9 | B => 21 end;
  supported_archs := {[ A; B ]};
  supported_levels := {[ 9; 14; 21 ]}
|}.

(** Modelled from the spec: a raw availability attribute is one of
    {introduced, deprecated, obsoleted} × {global scope, or scoped to a
    specific architecture} × integer API level, or a "future" marker, kept
    per architecture as the Availability keeps it. *)
Inductive Axis : Type := Introduced | Deprecated | Obsoleted.

Inductive Attribute : Type :=
| Versioned (axis : Axis) (scope : option Arch) (level : Z)
| Future (scope : Arch).

(** Modelled from the spec: a declaration is its "is a definition" flag
    and the raw availability attributes attached at its site (the source
    location plays no part in the checks). *)
Record Declaration : Type := mkDeclaration {
  decl_is_definition : bool;
  decl_attributes : list Attribute
}.

Definition get_axis (axis : Axis) (v : AvailabilityValues) : Z :=
  match axis with
  | Introduced => introduced v
  | Deprecated => deprecated v
  | Obsoleted => obsoleted v
  end.

Definition set_axis (axis : Axis) (level : Z) (v : AvailabilityValues)
    : AvailabilityValues :=
  match axis with
  | Introduced => mkAvailabilityValues (future v) level (deprecated v) (obsoleted v)
  | Deprecated => mkAvailabilityValues (future v) (introduced v) level (obsoleted v)
  | Obsoleted => mkAvailabilityValues (future v) (introduced v) (deprecated v) level
  end.

Definition set_future (v : AvailabilityValues) : AvailabilityValues :=
  mkAvailabilityValues true (introduced v) (deprecated v) (obsoleted v).

Definition update_arch (a : Arch) (f : AvailabilityValues → AvailabilityValues)
    (av : DeclarationAvailability Arch) : DeclarationAvailability Arch :=
  mkDeclarationAvailability (global_availability av)
    (λ a', if decide (a' = a) then f (arch_availability av a')
           else arch_availability av a').

Definition apply_attribute (attribute : Attribute)
    (av : DeclarationAvailability Arch) : DeclarationAvailability Arch :=
  match attribute with
  | Versioned axis None level =>
      mkDeclarationAvailability (set_axis axis level (global_availability av))
        (arch_availability av)
  | Versioned axis (Some a) level => update_arch a (set_axis axis level) av
  | Future a => update_arch a set_future av
  end.

(** Modelled from the spec: an Availability is compatible only if, for
    every axis, at most one of {global, that architecture's override} is
    set. *)
Definition compatible (av : DeclarationAvailability Arch) : bool :=
  forallb (λ axis,
             negb (bool_decide (get_axis axis (global_availability av) ≠ 0) &&
                   existsb (λ a, bool_decide
                                   (get_axis axis (arch_availability av a) ≠ 0))
                           [A; B]))
          [Introduced; Deprecated; Obsoleted].

(** Modelled from the spec: [Declaration::calculateAvailability] reduces
    the raw attributes of a declaration into an Availability and fails if
    the same axis is set both globally and per architecture. *)
Definition calculateAvailability (decl : Declaration)
    : option (DeclarationAvailability Arch) :=
  let av := foldr apply_attribute no_availability (decl_attributes decl) in
  if compatible av then Some av else None.

Definition values_empty (v : AvailabilityValues) : bool :=
  negb (future v) && bool_decide (introduced v = 0) &&
  bool_decide (deprecated v = 0) && bool_decide (obsoleted v = 0).

(** Modelled from the spec: an Availability is empty when no constraint
    exists. *)
Definition empty_availability (av : DeclarationAvailability Arch) : bool :=
  values_empty (global_availability av) &&
  forallb (λ a, values_empty (arch_availability av a)) [A; B].

(** The union of two values of one scope; [None] when both set an axis and
    disagree on its level. *)
Definition merge_axis (x y : Z) : option Z :=
  if bool_decide (x = 0) then Some y
  else if bool_decide (y = 0) then Some x
  else if bool_decide (x = y) then Some x else None.

Definition merge_values (v w : AvailabilityValues) : option AvailabilityValues :=
  i ← merge_axis (introduced v) (introduced w);
  d ← merge_axis (deprecated v) (deprecated w);
  o ← merge_axis (obsoleted v) (obsoleted w);
  Some (mkAvailabilityValues (future v || future w) i d o).

(** Modelled from the spec: the union of two Availability values, which
    fails if they disagree or if the union mixes a global and a
    per-architecture value on the same axis. *)
Definition merge (x y : DeclarationAvailability Arch)
    : option (DeclarationAvailability Arch) :=
  g ← merge_values (global_availability x) (global_availability y);
  a ← merge_values (arch_availability x A) (arch_availability y A);
  b ← merge_values (arch_availability x B) (arch_availability y B);
  let av := mkDeclarationAvailability g
              (λ a', match a' with A => a | B => b end) in
  if compatible av then Some av else None.

#[global] Instance declaration_ops : DeclarationOps Arch Declaration := {|
  is_definition := decl_is_definition;
  Declaration_calculateAvailability := calculateAvailability;
  DeclarationAvailability_empty := empty_availability;
  DeclarationAvailability_merge := merge
|}.

(** The matrix of the scenario: architectures {A, B}, levels {9, 21}. *)
Definition matrix : gset (CompilationType Arch) :=
  generateCompilationTypes {[ A; B ]} {[ 9; 21 ]}.

(** A declaration of [bar] stating [introduced=14]. *)
Definition bar_decl : Declaration :=
  mkDeclaration false [Versioned Introduced None 14].

Definition A_9_32 : CompilationType Arch := mkCompilationType A 9 32.

(** [bar] is declared under (A, 9, 32) ... *)
Definition bar : Symbol Arch Declaration :=
  mkSymbol "bar" {[ A_9_32 := bar_decl ]}.

Definition bar_headers : HeaderDatabase Arch Declaration :=
  mkHeaderDatabase {[ "bar" := bar ]}.

(** ... and the platform exports it there. *)
Definition bar_platform : gmap string (gset (CompilationType Arch)) :=
  {[ "bar" := {[ A_9_32 ]} ]}.

Definition A_8_32 : CompilationType Arch := mkCompilationType A 8 32.
Definition A_14_32 : CompilationType Arch := mkCompilationType A 14 32.
Definition B_21_32 : CompilationType Arch := mkCompilationType B 21 32.

(** [foo] is declared under the levels 8, 9 and 14 of A, each declaration
    stating [introduced=9] globally. *)
Definition foo_decl : Declaration :=
  mkDeclaration false [Versioned Introduced None 9].

Definition foo : Symbol Arch Declaration :=
  mkSymbol "foo" {[ A_8_32 := foo_decl; A_9_32 := foo_decl; A_14_32 := foo_decl ]}.

Definition foo_headers : HeaderDatabase Arch Declaration :=
  mkHeaderDatabase {[ "foo" := foo ]}.

(** The platform exports [foo] from level 9 on. *)
Definition foo_platform : gmap string (gset (CompilationType Arch)) :=
  {[ "foo" := {[ A_9_32; A_14_32 ]} ]}.

(** [qux] states [introduced=9] for architecture A only. *)
Definition qux_decl : Declaration :=
  mkDeclaration false [Versioned Introduced (Some A) 9].

Definition qux : Symbol Arch Declaration :=
  mkSymbol "qux" {[ A_8_32 := qux_decl; A_9_32 := qux_decl; B_21_32 := qux_decl ]}.

(** [later] is marked "future" for architecture A; the platform exports
    it under (A, 9, 32) only. *)
Definition later_decl : Declaration := mkDeclaration false [Future A].

Definition later : Symbol Arch Declaration :=
  mkSymbol "later" {[ A_9_32 := later_decl; B_21_32 := later_decl ]}.

Definition later_headers : HeaderDatabase Arch Declaration :=
  mkHeaderDatabase {[ "later" := later ]}.

Definition later_platform : gmap string (gset (CompilationType Arch)) :=
  {[ "later" := {[ A_9_32 ]} ]}.

(** The one declaration of [mixed] states [introduced] both globally and
    for architecture A, as in [__INTRODUCED_IN(9) __INTRODUCED_IN_X86(10)]:
    the availability of the declaration does not calculate. *)
Definition mixed_decl : Declaration :=
  mkDeclaration false
    [Versioned Introduced None 9; Versioned Introduced (Some A) 10].

Definition mixed : Symbol Arch Declaration :=
  mkSymbol "mixed" {[ A_9_32 := mixed_decl ]}.

Definition mixed_headers : HeaderDatabase Arch Declaration :=
  mkHeaderDatabase {[ "mixed" := mixed ]}.

(** The two declarations of [clash] disagree: one states [introduced=9]
    globally, the other [introduced=14] for architecture A; the merged
    availability of the symbol does not calculate. *)
Definition clash : Symbol Arch Declaration :=
  mkSymbol "clash"
    {[ A_9_32 := mkDeclaration false [Versioned Introduced None 9];
       B_21_32 := mkDeclaration false [Versioned Introduced (Some A) 14] ]}.

Definition clash_headers : HeaderDatabase Arch Declaration :=
  mkHeaderDatabase {[ "clash" := clash ]}.

(** [twice] has an inline definition under two configurations. *)
Definition inline_decl : Declaration := mkDeclaration true [].

Definition twice : Symbol Arch Declaration :=
  mkSymbol "twice" {[ A_9_32 := inline_decl; B_21_32 := inline_decl ]}.

(** [tagged] has an inline definition that carries [introduced=9]. *)
Definition tagged : Symbol Arch Declaration :=
  mkSymbol "tagged"
    {[ A_9_32 := mkDeclaration true [Versioned Introduced None 9] ]}.

Definition no_headers : HeaderDatabase Arch Declaration := mkHeaderDatabase ∅.

(** A platform that exports [gone], which no header declares. *)
Definition gone_platform : gmap string (gset (CompilationType Arch)) :=
  {[ "gone" := {[ A_9_32 ]} ]}.

(** The collaborators of a run over the headers of [foo]: the header
    directory "broken" makes the parser report a warning, every other
    directory parses cleanly; the platform data is that of [foo];
    preprocessing succeeds. *)
#[global] Program Instance collaborators : Collaborators Arch Declaration := {|
  realpath path := path;
  is_directory _ := true;
  compileHeaders _ header_dir _ :=
    (foo_headers, bool_decide (header_dir = "broken"));
  parsePlatforms _ _ := Ret foo_platform;
  preprocessHeaders _ _ _ := true
|}.
Next Obligation. intros ?. done. Qed.

(** [versioner -a 9 -a 14 -p platforms include]. *)
Definition checking_run : Options Arch :=
  mkOptions "platforms" ∅ {[ 9; 14 ]} false EmptyString false false
            ["include"] "top".

(** [versioner -o out -f broken]. *)
Definition forced_run : Options Arch :=
  mkOptions EmptyString ∅ ∅ false "out" true false ["broken"] "top".

End Scenario.

(** * Properties *)

Section Properties.

Context {Arch : Type} {Arch_eq_dec : EqDecision Arch}
        {Arch_countable : Countable Arch} {arch_table : ArchTable Arch}
        {Declaration : Type} {declaration_ops : DeclarationOps Arch Declaration}
        {collaborators : Collaborators Arch Declaration}.

Implicit Types (t type : CompilationType Arch) (types : gset (CompilationType Arch)).
Implicit Types (symbol : Symbol Arch Declaration).

(** ** Membership in the generated matrix *)

Lemma elem_of_insert_offsets a level result t :
  t ∈ insert_offsets a level result ↔
  t = mkCompilationType a level 32 ∨ t = mkCompilationType a level 64 ∨ t ∈ result.
Proof. unfold insert_offsets. simpl. set_solver. Qed.

Lemma elem_of_insert_levels a levels result t :
  t ∈ insert_levels a levels result ↔
  (arch t = a ∧ api_level t ∈ levels ∧ arch_min_api a ≤ api_level t ∧
   (file_offset_bits t = 32 ∨ file_offset_bits t = 64)) ∨ t ∈ result.
Proof.
  unfold insert_levels.
  apply (set_fold_ind_L (λ r (X : gset Z),
    t ∈ r ↔ (arch t = a ∧ api_level t ∈ X ∧ arch_min_api a ≤ api_level t ∧
             (file_offset_bits t = 32 ∨ file_offset_bits t = 64)) ∨ t ∈ result)).
  - set_solver.
  - intros level X r Hnew IH. case_bool_decide as Hlt.
    + rewrite IH. set_unfold. naive_solver lia.
    + rewrite elem_of_insert_offsets, IH. destruct t as [ta tl tb]; simpl.
      set_unfold. naive_solver lia.
Qed.

Lemma elem_of_generateCompilationTypes archs levels t :
  t ∈ generateCompilationTypes archs levels ↔
  arch t ∈ archs ∧ api_level t ∈ levels ∧
  arch_min_api (arch t) ≤ api_level t ∧
  (file_offset_bits t = 32 ∨ file_offset_bits t = 64).
Proof.
  unfold generateCompilationTypes.
  apply (set_fold_ind_L (λ r (X : gset Arch),
    t ∈ r ↔ arch t ∈ X ∧ api_level t ∈ levels ∧
            arch_min_api (arch t) ≤ api_level t ∧
            (file_offset_bits t = 32 ∨ file_offset_bits t = 64))).
  - set_solver.
  - intros a X r Hnew IH. rewrite elem_of_insert_levels, IH.
    split.
    + intros [(<- & ? & ? & ?)|(? & ? & ? & ?)]; repeat split; set_solver.
    + intros (Ha & ? & ? & ?).
      apply elem_of_union in Ha as [Ha|Ha]; [|by right].
      apply elem_of_singleton in Ha. subst. by left.
Qed.


(** ** C5 and C10: the configuration matrix *)

(** C5: every CompilationType of the generated matrix has an api_level at
    least the minimum of its architecture; a selected level below the
    minimum of an architecture is skipped (the function is total and has no
    error result), so no type of the matrix carries it; both
    file_offset_bits, 32 and 64, are present for every surviving
    (architecture, level) pair; and for architectures {a with minimum 9,
    b with minimum 21} and levels {9, 21} the matrix has exactly 6
    elements. *)
Theorem generateCompilationTypes_matrix :
  (∀ (archs : gset Arch) (levels : gset Z),
     (∀ t, t ∈ generateCompilationTypes archs levels →
           arch_min_api (arch t) ≤ api_level t) ∧
     (∀ a level bits, a ∈ archs → level ∈ levels → level < arch_min_api a →
           mkCompilationType a level bits ∉ generateCompilationTypes archs levels) ∧
     (∀ a level, a ∈ archs → level ∈ levels → arch_min_api a ≤ level →
           mkCompilationType a level 32 ∈ generateCompilationTypes archs levels ∧
           mkCompilationType a level 64 ∈ generateCompilationTypes archs levels) ∧
     (∀ t, t ∈ generateCompilationTypes archs levels →
           mkCompilationType (arch t) (api_level t) 32
             ∈ generateCompilationTypes archs levels ∧
           mkCompilationType (arch t) (api_level t) 64
             ∈ generateCompilationTypes archs levels)) ∧
  (∀ a b : Arch, a ≠ b → arch_min_api a = 9 → arch_min_api b = 21 →
     size (generateCompilationTypes {[ a; b ]} {[ 9; 21 ]}) = 6%nat).
Proof.
  split.
  - intros archs levels. split; [|split; [|split]].
    + intros t Ht. apply elem_of_generateCompilationTypes in Ht. tauto.
    + intros a level bits Ha Hl Hlt Ht.
      apply elem_of_generateCompilationTypes in Ht. simpl in Ht. lia.
    + intros a level Ha Hl Hmin.
      split; apply elem_of_generateCompilationTypes; simpl; tauto.
    + intros t Ht. apply elem_of_generateCompilationTypes in Ht.
      split; apply elem_of_generateCompilationTypes; simpl; tauto.
  - intros a b Hab Ha Hb.
    assert (generateCompilationTypes {[ a; b ]} {[ 9; 21 ]} =
            {[ mkCompilationType a 9 32 ]} ∪ ({[ mkCompilationType a 9 64 ]} ∪
            ({[ mkCompilationType a 21 32 ]} ∪ ({[ mkCompilationType a 21 64 ]} ∪
            ({[ mkCompilationType b 21 32 ]} ∪ {[ mkCompilationType b 21 64 ]})))))
      as ->.
    { apply set_eq. intros [ta tl tb].
      rewrite elem_of_generateCompilationTypes. simpl.
      rewrite !elem_of_union, !elem_of_singleton.
      split.
      - intros ([->| ->] & [->| ->] & Hmin & [->| ->]);
          rewrite ?Ha, ?Hb in Hmin; try lia; tauto.
      - intros Ht. repeat destruct Ht as [Ht|Ht]; simplify_eq;
          rewrite ?Ha, ?Hb; repeat split; auto; lia. }
    rewrite !size_union, !size_singleton; [done|..];
      apply disjoint_singleton_l; rewrite ?elem_of_union, ?elem_of_singleton;
      intros Hin; repeat destruct Hin as [Hin|Hin]; congruence.
Qed.

(** C10: [generateCompilationTypes] is monotone with respect to set
    inclusion in the selected levels and in the selected architectures, and
    its output lies in the product of the selected architectures, the
    selected levels and {32, 64}. *)
Theorem generateCompilationTypes_monotone :
  (∀ (archs : gset Arch) (levels1 levels2 : gset Z),
     levels1 ⊆ levels2 →
     generateCompilationTypes archs levels1 ⊆ generateCompilationTypes archs levels2) ∧
  (∀ (archs1 archs2 : gset Arch) (levels : gset Z),
     archs1 ⊆ archs2 →
     generateCompilationTypes archs1 levels ⊆ generateCompilationTypes archs2 levels) ∧
  (∀ (archs : gset Arch) (levels : gset Z) t,
     t ∈ generateCompilationTypes archs levels →
     arch t ∈ archs ∧ api_level t ∈ levels ∧
     file_offset_bits t ∈ ({[ 32; 64 ]} : gset Z)).
Proof.
  split; [|split].
  - intros archs levels1 levels2 Hsub t Ht.
    apply elem_of_generateCompilationTypes in Ht.
    apply elem_of_generateCompilationTypes. set_solver.
  - intros archs1 archs2 levels Hsub t Ht.
    apply elem_of_generateCompilationTypes in Ht.
    apply elem_of_generateCompilationTypes. set_solver.
  - intros archs levels t Ht.
    apply elem_of_generateCompilationTypes in Ht. set_solver.
Qed.

(** ** C4: the sanity check *)






(** ** C6 and C7: the "should be available" predicate *)

(** C6: for a symbol whose merged availability has global introduced
    equal to 9 and no other constraint, and which has a declaration under
    the configuration, the predicate is false when the api_level is 8 and
    true when it is 9 or 14. *)
Theorem should_be_available_global_introduced symbol symbol_availability type :
  Symbol_calculateAvailability symbol = Some symbol_availability →
  global_availability symbol_availability = mkAvailabilityValues false 9 0 0 →
  (∀ a, arch_availability symbol_availability a = no_values) →
  hasDeclaration symbol type = true →
  (api_level type = 8 →
   should_be_available symbol_availability symbol type = Some false) ∧
  (api_level type = 9 ∨ api_level type = 14 →
   should_be_available symbol_availability symbol type = Some true).
Proof.
  intros _ Hglobal Harch Hdecl. unfold should_be_available.
  rewrite Hglobal, Harch, Hdecl. simpl. split.
  - intros ->. done.
  - intros [-> | ->]; done.
Qed.

(** C7: for a symbol whose merged availability sets introduced equal to 9
    only in the entry of architecture [A] (nothing global, nothing for
    another architecture), and which has a declaration under the
    configuration, the predicate is true under every configuration of
    another architecture, whatever its api_level, and under a configuration
    of [A] it is false exactly when the api_level is below 9. *)
Theorem should_be_available_arch_introduced (A : Arch) symbol symbol_availability type :
  Symbol_calculateAvailability symbol = Some symbol_availability →
  global_availability symbol_availability = no_values →
  arch_availability symbol_availability A = mkAvailabilityValues false 9 0 0 →
  (∀ a, a ≠ A → arch_availability symbol_availability a = no_values) →
  hasDeclaration symbol type = true →
  (arch type ≠ A →
   should_be_available symbol_availability symbol type = Some true) ∧
  (arch type = A →
   (should_be_available symbol_availability symbol type = Some false ↔
    api_level type < 9) ∧
   (should_be_available symbol_availability symbol type = Some true ↔
    9 ≤ api_level type)).
Proof.
  intros _ Hglobal HA Hother Hdecl. unfold should_be_available.
  rewrite Hglobal, Hdecl. simpl. split.
  - intros Hne. by rewrite (Hother _ Hne).
  - intros ->. rewrite HA. simpl.
    case_bool_decide; split; split; intros; simplify_eq; try done; lia.
Qed.

(** ** The records of [checkVersions] *)

Lemma recorded_record records symbol_name type symbol_name' type' :
  recorded (record symbol_name type records) symbol_name' type' ↔
  (symbol_name' = symbol_name ∧ type' = type) ∨ recorded records symbol_name' type'.
Proof.
  unfold recorded, record. destruct (decide (symbol_name = symbol_name')) as [->|Hne].
  - rewrite lookup_insert_eq. split.
    + intros (S & [= <-] & Hin). apply elem_of_union in Hin as [Hin|Hin].
      * apply elem_of_singleton in Hin. by left.
      * right. destruct (records !! symbol_name') as [S|]; simpl in Hin.
        -- by exists S.
        -- by apply not_elem_of_empty in Hin.
    + intros [[_ ->]|(S & HS & Hin)]; eexists; (split; [done|]).
      * apply elem_of_union_l. by apply elem_of_singleton.
      * apply elem_of_union_r. by rewrite HS.
  - rewrite lookup_insert_ne by done. split; [by right|].
    by intros [[-> _]|?].
Qed.

Lemma populated_record records symbol_name type :
  populated records → populated (record symbol_name type records).
Proof.
  intros Hpop symbol_name' Hsome.
  destruct (decide (symbol_name' = symbol_name)) as [->|Hne].
  - exists type. apply recorded_record. by left.
  - unfold record in Hsome. rewrite lookup_insert_ne in Hsome by done.
    destruct (Hpop _ Hsome) as [type' Htype']. exists type'.
    apply recorded_record. by right.
Qed.

Lemma populated_lookup records symbol_name :
  populated records →
  is_Some (records !! symbol_name) ↔ ∃ type, recorded records symbol_name type.
Proof.
  intros Hpop. split; [apply Hpop|]. intros (type & types & -> & _). by eexists.
Qed.

Lemma check_types_checked symbol_name symbol symbol_availability
    platform_availability d types :
  types_checked symbol_name symbol symbol_availability platform_availability d
    (set_fold (check_type symbol_name symbol symbol_availability
                 platform_availability) d types)
    types.
Proof.
  apply (set_fold_ind_L (types_checked symbol_name symbol symbol_availability
                           platform_availability d)).
  - unfold types_checked. repeat split; try done; try (by left); set_solver.
  - intros type X d' Hnew (Hcu & Hmissing & Hextra & Hpm & Hpe).
    unfold check_type.
    destruct (should_be_available symbol_availability symbol type)
      as [should|] eqn:Hshould.
    + case_bool_decide as Hdiff.
      * case_bool_decide as Hin; simpl.
        -- destruct should; [done|].
           split; [done|]. split; [|split; [|split]]; simpl.
           ++ intros n t. rewrite Hmissing. set_unfold. naive_solver.
           ++ intros n t. rewrite recorded_record, Hextra. set_unfold. naive_solver.
           ++ done.
           ++ intros Hp. by apply populated_record, Hpe.
        -- destruct should; [|done].
           split; [done|]. split; [|split; [|split]]; simpl.
           ++ intros n t. rewrite recorded_record, Hmissing. set_unfold. naive_solver.
           ++ intros n t. rewrite Hextra. set_unfold. naive_solver.
           ++ intros Hp. by apply populated_record, Hpm.
           ++ done.
      * assert (should = bool_decide (type ∈ platform_availability)) as Heq
          by (by destruct (decide (should = bool_decide (type ∈ platform_availability)))).
        split; [done|]. split; [|split; [|split]]; try done.
        -- intros n t. rewrite Hmissing. set_unfold.
           case_bool_decide; naive_solver.
        -- intros n t. rewrite Hextra. set_unfold.
           case_bool_decide; naive_solver.
    + split; [done|]. split; [|split; [|split]]; try done.
      * intros n t. rewrite Hmissing. set_unfold. naive_solver.
      * intros n t. rewrite Hextra. set_unfold. naive_solver.
Qed.

(** ** The two loops of [checkVersions] *)

Lemma compared_insert types (m : gmap string (Symbol Arch Declaration))
    (symbol_database : gmap string (gset (CompilationType Arch)))
    i x n t should is_available :
  m !! i = None →
  compared types (mkHeaderDatabase (<[i:=x]> m)) symbol_database n t
    should is_available ↔
  compared types (mkHeaderDatabase m) symbol_database n t should is_available ∨
  (n = i ∧ ∃ av pa,
     Symbol_calculateAvailability x = Some av ∧
     symbol_database !! i = Some pa ∧ t ∈ types ∧
     should_be_available av x t = Some should ∧
     is_available = bool_decide (t ∈ pa)).
Proof.
  intros Hfresh. unfold compared; simpl. split.
  - intros (sy & av & pa & Hl & Hrest). destruct (decide (i = n)) as [->|Hne].
    + rewrite lookup_insert_eq in Hl. simplify_eq. right. split; [done|].
      by exists av, pa.
    + rewrite lookup_insert_ne in Hl by done. left. by exists sy, av, pa.
  - intros [(sy & av & pa & Hl & Hrest)|(-> & av & pa & Hrest)].
    + exists sy, av, pa. rewrite lookup_insert_ne; [done|]. intros ->; congruence.
    + exists x, av, pa. by rewrite lookup_insert_eq.
Qed.

Lemma collect_divergences_spec types
    (header_database : HeaderDatabase Arch Declaration)
    (symbol_database : gmap string (gset (CompilationType Arch))) :
  match collect_divergences types header_database symbol_database with
  | Ret d => calculable header_database ∧
             collected types header_database symbol_database d
  | Exit status => status = 1 ∧ ¬ calculable header_database
  end.
Proof.
  destruct header_database as [m]. unfold collect_divergences. simpl.
  apply (map_fold_weak_ind (λ r (m : gmap string (Symbol Arch Declaration)),
    match r with
    | Ret d => calculable (mkHeaderDatabase m) ∧
               collected types (mkHeaderDatabase m) symbol_database d
    | Exit status => status = 1 ∧ ¬ calculable (mkHeaderDatabase m)
    end)).
  - split; [apply map_Forall_empty|].
    unfold collected. simpl. split; [|split; [|split; [|split]]].
    + intros n. rewrite lookup_empty. split; [set_solver|].
      by intros [[? ?] _].
    + intros n t. split.
      * intros (? & Hl & _). by rewrite lookup_empty in Hl.
      * intros (? & ? & ? & Hl & _). simpl in Hl. by rewrite lookup_empty in Hl.
    + intros n t. split.
      * intros (? & Hl & _). by rewrite lookup_empty in Hl.
      * intros (? & ? & ? & Hl & _). simpl in Hl. by rewrite lookup_empty in Hl.
    + intros n [? Hl]. by rewrite lookup_empty in Hl.
    + intros n [? Hl]. by rewrite lookup_empty in Hl.
  - intros i x m' r Hfresh IH.
    assert (calculable (mkHeaderDatabase (<[i:=x]> m')) ↔
            is_Some (Symbol_calculateAvailability x) ∧
            calculable (mkHeaderDatabase m')) as Hins
      by (unfold calculable; simpl;
          exact (map_Forall_insert
                   (λ _ symbol, is_Some (Symbol_calculateAvailability symbol))
                   m' i x Hfresh)).
    destruct r as [d|status]; unfold mbind, outcome_bind.
    + destruct IH as (Hcalc & Hcu & Hmissing & Hextra & Hpm & Hpe).
      unfold check_symbol_versions.
      destruct (Symbol_calculateAvailability x) as [av|] eqn:Hav.
      * destruct (symbol_database !! i) as [pa|] eqn:Hpa; unfold mret, outcome_ret.
        -- destruct (check_types_checked i x av pa d types)
             as (Hcu' & Hmissing' & Hextra' & Hpm' & Hpe').
           split; [apply Hins; split; [by eexists|done]|].
           unfold collected. split; [|split; [|split; [|split]]].
           ++ intros n. rewrite Hcu', Hcu. simpl.
              destruct (decide (i = n)) as [->|Hne].
              ** rewrite lookup_insert_eq, Hpa, Hfresh.
                 split; [by intros [[? ?] _]|by intros [_ ?]].
              ** by rewrite lookup_insert_ne.
           ++ intros n t. rewrite Hmissing', Hmissing.
             unfold missing_divergence. rewrite compared_insert by done.
             split.
             ** intros [?|(-> & Ht & Hs & Hn)]; [by left|right].
                split; [done|]. exists av, pa. by rewrite bool_decide_eq_false_2.
             ** intros [?|(-> & av' & pa' & ? & ? & ? & ? & Hb)]; [by left|right].
                simplify_eq. symmetry in Hb. by apply bool_decide_eq_false in Hb.
           ++ intros n t. rewrite Hextra', Hextra.
             unfold extra_divergence. rewrite compared_insert by done.
             split.
             ** intros [?|(-> & Ht & Hs & Hn)]; [by left|right].
                split; [done|]. exists av, pa. by rewrite bool_decide_eq_true_2.
             ** intros [?|(-> & av' & pa' & ? & ? & ? & ? & Hb)]; [by left|right].
                simplify_eq. symmetry in Hb. by apply bool_decide_eq_true in Hb.
           ++ by apply Hpm'.
           ++ by apply Hpe'.
        -- split; [apply Hins; split; [by eexists|done]|].
           unfold collected; simpl.
           split; [|split; [|split; [|split]]]; try done.
           ++ intros n. rewrite elem_of_union, elem_of_singleton, Hcu. simpl.
              destruct (decide (i = n)) as [->|Hne].
              ** rewrite lookup_insert_eq. split; [by intros _|by left].
              ** rewrite lookup_insert_ne by done. split; [|by right].
                 by intros [?|?].
           ++ intros n t. rewrite Hmissing.
             unfold missing_divergence. rewrite compared_insert by done.
             split; [by left|]. intros [?|(-> & av' & pa' & ? & ? & _)]; [done|].
             congruence.
           ++ intros n t. rewrite Hextra.
             unfold extra_divergence. rewrite compared_insert by done.
             split; [by left|]. intros [?|(-> & av' & pa' & ? & ? & _)]; [done|].
             congruence.
      * unfold errx. split; [done|]. rewrite Hins. by intros [[? ?] _].
    + destruct IH as [-> Hnot]. split; [done|]. rewrite Hins. by intros [_ ?].
Qed.

Lemma flagged_true verbose (d : Divergences Arch) symbol_name :
  flagged verbose d symbol_name = true ↔
  is_Some (missing_availability d !! symbol_name) ∨
  (verbose = true ∧ is_Some (extra_availability d !! symbol_name)).
Proof.
  unfold flagged.
  rewrite orb_true_iff, andb_true_iff, !bool_decide_eq_true. tauto.
Qed.

Lemma report_symbol_spec verbose
    (header_database : HeaderDatabase Arch Declaration) d symbol_name failed :
  report_symbol verbose header_database d symbol_name failed =
  if flagged verbose d symbol_name then
    match symbols header_database !! symbol_name with
    | None => Exit 1
    | Some _ => Ret true
    end
  else Ret failed.
Proof.
  unfold flagged, report_symbol.
  destruct (bool_decide (is_Some (missing_availability d !! symbol_name)));
    destruct verbose; simpl;
    try destruct (bool_decide (is_Some (extra_availability d !! symbol_name)));
    done.
Qed.

Lemma report_divergences_spec verbose
    (header_database : HeaderDatabase Arch Declaration)
    (symbol_database : gmap string (gset (CompilationType Arch))) d :
  (∀ symbol_name, flagged verbose d symbol_name = true →
                  is_Some (symbols header_database !! symbol_name)) →
  ∃ failed,
    report_divergences verbose header_database symbol_database d = Ret failed ∧
    (failed = true ↔
     ∃ symbol_name, is_Some (symbol_database !! symbol_name) ∧
                    flagged verbose d symbol_name = true).
Proof.
  intros Hknown. unfold report_divergences.
  apply (map_fold_weak_ind (λ r (m : gmap string (gset (CompilationType Arch))),
    ∃ failed, r = Ret failed ∧
      (failed = true ↔
       ∃ symbol_name, is_Some (m !! symbol_name) ∧
                      flagged verbose d symbol_name = true))).
  - exists false. split; [done|]. split; [done|].
    intros (? & [? Hl] & _). by rewrite lookup_empty in Hl.
  - intros i x m r Hfresh (failed & -> & IH). unfold mbind, outcome_bind.
    rewrite report_symbol_spec.
    destruct (flagged verbose d i) eqn:Hf.
    + destruct (Hknown i Hf) as [sy ->].
      exists true. split; [done|]. split; [|done]. intros _. exists i.
      by rewrite lookup_insert_eq.
    + exists failed. split; [done|]. rewrite IH. split.
      * intros (n & Hn & Hfl). exists n. split; [|done].
        rewrite lookup_insert_ne; [done|]. intros ->. by destruct Hn; congruence.
      * intros (n & Hn & Hfl). exists n. split; [|done].
        destruct (decide (i = n)) as [->|Hne]; [congruence|].
        by rewrite lookup_insert_ne in Hn.
Qed.

Lemma checkVersions_spec verbose types
    (header_database : HeaderDatabase Arch Declaration)
    (symbol_database : gmap string (gset (CompilationType Arch))) :
  (calculable header_database →
   ∃ passed,
     checkVersions verbose types header_database symbol_database = Ret passed ∧
     (passed = false ↔
      ∃ symbol_name type,
        missing_divergence types header_database symbol_database symbol_name type ∨
        (verbose = true ∧
         extra_divergence types header_database symbol_database symbol_name type))) ∧
  (¬ calculable header_database →
   checkVersions verbose types header_database symbol_database = Exit 1).
Proof.
  unfold checkVersions.
  pose proof (collect_divergences_spec types header_database symbol_database) as Hc.
  destruct (collect_divergences types header_database symbol_database)
    as [d|status]; unfold mbind, outcome_bind.
  - destruct Hc as (Hcalc & Hcu & Hmissing & Hextra & Hpm & Hpe).
    split; [|done]. intros _.
    assert (∀ n, flagged verbose d n = true ↔
                 ∃ t, missing_divergence types header_database symbol_database n t ∨
                      (verbose = true ∧
                       extra_divergence types header_database symbol_database n t))
      as Hflag.
    { intros n.
      rewrite flagged_true, (populated_lookup _ n Hpm), (populated_lookup _ n Hpe).
      split.
      - intros [(t & Ht)|(Hv & t & Ht)]; exists t.
        + left. by apply Hmissing.
        + right. split; [done|]. by apply Hextra.
      - intros (t & [Ht|(Hv & Ht)]).
        + left. exists t. by apply Hmissing.
        + right. split; [done|]. exists t. by apply Hextra. }
    destruct (report_divergences_spec verbose header_database symbol_database d)
      as (failed & -> & Hfailed).
    { intros n Hn. apply Hflag in Hn as (t & [Ht|(_ & Ht)]);
        destruct Ht as (sy & ? & ? & -> & _); by eexists. }
    exists (negb failed). split; [done|]. rewrite negb_false_iff, Hfailed. split.
    + intros (n & _ & Hn). apply Hflag in Hn as (t & Ht). by exists n, t.
    + intros (n & t & Ht). exists n. split.
      * destruct Ht as [Ht|(_ & Ht)];
          destruct Ht as (? & ? & ? & _ & _ & -> & _); by eexists.
      * apply Hflag. by exists t.
  - destruct Hc as [-> Hnot]. split; [done|]. done.
Qed.

Lemma checkVersions_exit verbose types
    (header_database : HeaderDatabase Arch Declaration)
    (symbol_database : gmap string (gset (CompilationType Arch))) status :
  checkVersions verbose types header_database symbol_database = Exit status →
  status = 1.
Proof.
  intros Hexit.
  destruct (checkVersions_spec verbose types header_database symbol_database)
    as [Hret Hnot].
  destruct (decide (calculable header_database)) as [Hcalc|Hcalc].
  - destruct (Hret Hcalc) as (passed & Heq & _). congruence.
  - rewrite (Hnot Hcalc) in Hexit. congruence.
Qed.

(** ** C1, C2, C8 and C9: the check against the platform *)

(** C1 (amended): when every symbol has a merged availability, an extra
    availability divergence makes [checkVersions] return fail when verbose
    diagnostics are enabled; when they are disabled, extra availability
    neither is reported nor fails the run: [checkVersions] passes as soon
    as there is no missing availability divergence. *)
Theorem checkVersions_extra_availability types
    (header_database : HeaderDatabase Arch Declaration)
    (symbol_database : gmap string (gset (CompilationType Arch))) :
  calculable header_database →
  (∀ symbol_name type,
     extra_divergence types header_database symbol_database symbol_name type →
     checkVersions true types header_database symbol_database = Ret false) ∧
  ((∀ symbol_name type,
      ¬ missing_divergence types header_database symbol_database symbol_name type) →
   checkVersions false types header_database symbol_database = Ret true).
Proof.
  intros Hcalc. split.
  - intros symbol_name type Hextra.
    destruct (checkVersions_spec true types header_database symbol_database)
      as [Hret _].
    destruct (Hret Hcalc) as (passed & -> & Hpassed).
    f_equal. apply Hpassed. exists symbol_name, type. by right.
  - intros Hnone.
    destruct (checkVersions_spec false types header_database symbol_database)
      as [Hret _].
    destruct (Hret Hcalc) as (passed & -> & Hpassed).
    f_equal. destruct passed; [done|].
    destruct (proj1 Hpassed eq_refl) as (n & t & [Hm|[? _]]); [|done].
    by destruct (Hnone n t).
Qed.

(** C2 (amended): when its first loop returns, [checkVersions] has
    collected in the "completely unavailable" set exactly the symbol names
    that are present in the HeaderDatabase and absent from the
    PlatformSymbolDatabase; a name of that set, and likewise a name that
    the HeaderDatabase lacks, has no record of missing or of extra
    availability, and the second loop leaves [failed] as it is at that
    name; and whenever [checkVersions] returns fail, some symbol present in
    both databases has a divergence. *)
Theorem checkVersions_completely_unavailable verbose types
    (header_database : HeaderDatabase Arch Declaration)
    (symbol_database : gmap string (gset (CompilationType Arch))) d :
  collect_divergences types header_database symbol_database = Ret d →
  (∀ symbol_name,
     symbol_name ∈ completely_unavailable d ↔
     is_Some (symbols header_database !! symbol_name) ∧
     symbol_database !! symbol_name = None) ∧
  (∀ symbol_name,
     symbol_name ∈ completely_unavailable d ∨
     symbols header_database !! symbol_name = None →
     missing_availability d !! symbol_name = None ∧
     extra_availability d !! symbol_name = None ∧
     ∀ failed,
       report_symbol verbose header_database d symbol_name failed = Ret failed) ∧
  (checkVersions verbose types header_database symbol_database = Ret false →
   ∃ symbol_name type,
     is_Some (symbols header_database !! symbol_name) ∧
     is_Some (symbol_database !! symbol_name) ∧
     (missing_divergence types header_database symbol_database symbol_name type ∨
      extra_divergence types header_database symbol_database symbol_name type)).
Proof.
  intros Hd.
  pose proof (collect_divergences_spec types header_database symbol_database) as Hc.
  rewrite Hd in Hc. destruct Hc as (Hcalc & Hcu & Hmissing & Hextra & Hpm & Hpe).
  split; [done|]. split.
  - intros n Hn.
    assert (∀ t should is_available,
              ¬ compared types header_database symbol_database n t
                  should is_available) as Hnot.
    { intros t should is_available (sy & av & pa & Hh & _ & Hp & _).
      destruct Hn as [Hn|Hn]; [|congruence].
      apply Hcu in Hn as [_ Hn]. congruence. }
    assert (missing_availability d !! n = None) as Hm.
    { apply eq_None_not_Some. intros Hs. apply Hpm in Hs as [t Ht].
      apply Hmissing in Ht. by apply Hnot in Ht. }
    assert (extra_availability d !! n = None) as He.
    { apply eq_None_not_Some. intros Hs. apply Hpe in Hs as [t Ht].
      apply Hextra in Ht. by apply Hnot in Ht. }
    split; [done|]. split; [done|]. intros failed.
    rewrite report_symbol_spec. unfold flagged. rewrite Hm, He.
    by destruct verbose.
  - intros Hfail.
    destruct (checkVersions_spec verbose types header_database symbol_database)
      as [Hret _].
    destruct (Hret Hcalc) as (passed & Heq & Hpassed).
    rewrite Hfail in Heq. injection Heq as <-.
    destruct (proj1 Hpassed eq_refl) as (n & t & Hdiv). exists n, t.
    assert (missing_divergence types header_database symbol_database n t ∨
            extra_divergence types header_database symbol_database n t)
      as Hdiv' by tauto.
    split; [|split; [|done]].
    + destruct Hdiv' as [H|H]; destruct H as (? & ? & ? & -> & _); by eexists.
    + destruct Hdiv' as [H|H]; destruct H as (? & ? & ? & _ & _ & -> & _);
        by eexists.
Qed.

(** C8: for a symbol whose merged availability marks architecture [A] as
    "future", the first loop of [checkVersions] records neither a missing
    nor an extra availability under a configuration of [A]; under a
    configuration of the matrix of another architecture (one that the
    availability does not mark) the predicate is evaluated and compared
    with the platform: the configuration is recorded as missing exactly
    when the predicate is true and the platform does not export the symbol,
    and as extra exactly when the predicate is false and the platform
    exports it. *)
Theorem checkVersions_future (A : Arch) types
    (header_database : HeaderDatabase Arch Declaration)
    (symbol_database : gmap string (gset (CompilationType Arch)))
    d symbol_name symbol symbol_availability :
  collect_divergences types header_database symbol_database = Ret d →
  symbols header_database !! symbol_name = Some symbol →
  Symbol_calculateAvailability symbol = Some symbol_availability →
  future (arch_availability symbol_availability A) = true →
  (∀ type, arch type = A →
     ¬ recorded (missing_availability d) symbol_name type ∧
     ¬ recorded (extra_availability d) symbol_name type) ∧
  (∀ type platform_availability,
     arch type ≠ A → type ∈ types →
     future (arch_availability symbol_availability (arch type)) = false →
     symbol_database !! symbol_name = Some platform_availability →
     ∃ should,
       should_be_available symbol_availability symbol type = Some should ∧
       (recorded (missing_availability d) symbol_name type ↔
        should = true ∧ type ∉ platform_availability) ∧
       (recorded (extra_availability d) symbol_name type ↔
        should = false ∧ type ∈ platform_availability)).
Proof.
  intros Hd Hsym Hav Hfuture.
  pose proof (collect_divergences_spec types header_database symbol_database) as Hc.
  rewrite Hd in Hc. destruct Hc as (Hcalc & Hcu & Hmissing & Hextra & Hpm & Hpe).
  split.
  - intros type Harch.
    assert (should_be_available symbol_availability symbol type = None) as Hskip
      by (unfold should_be_available; by rewrite Harch, Hfuture).
    split; intros Hrec.
    + apply Hmissing in Hrec as (sy & av & pa & ? & ? & _ & _ & Hs & _).
      by simplify_eq.
    + apply Hextra in Hrec as (sy & av & pa & ? & ? & _ & _ & Hs & _).
      by simplify_eq.
  - intros type pa Harch Htype Hnot Hpa.
    destruct (should_be_available symbol_availability symbol type)
      as [should|] eqn:Hshould;
      [|unfold should_be_available in Hshould; by rewrite Hnot in Hshould].
    exists should. split; [done|]. split.
    + rewrite Hmissing. split.
      * intros (sy & av & pa' & ? & ? & ? & _ & Hs & Hb). simplify_eq.
        split; [congruence|]. symmetry in Hb. by apply bool_decide_eq_false in Hb.
      * intros [-> Hn]. exists symbol, symbol_availability, pa.
        by rewrite bool_decide_eq_false_2.
    + rewrite Hextra. split.
      * intros (sy & av & pa' & ? & ? & ? & _ & Hs & Hb). simplify_eq.
        split; [congruence|]. symmetry in Hb. by apply bool_decide_eq_true in Hb.
      * intros [-> Hn]. exists symbol, symbol_availability, pa.
        by rewrite bool_decide_eq_true_2.
Qed.

(** C9 (amended): when every symbol of the HeaderDatabase has a merged
    availability, [checkVersions] runs both loops to their end and returns
    a single pass/fail, which is fail exactly when some symbol and some
    configuration of the matrix show a missing availability or, with
    verbose diagnostics, an extra availability; when the merged
    availability of some symbol fails to calculate, [checkVersions] does
    not return: the process ends in [errx] with status 1. *)
Theorem checkVersions_enumeration verbose types
    (header_database : HeaderDatabase Arch Declaration)
    (symbol_database : gmap string (gset (CompilationType Arch))) :
  (calculable header_database →
   ∃ passed,
     checkVersions verbose types header_database symbol_database = Ret passed ∧
     (passed = false ↔
      ∃ symbol_name type,
        missing_divergence types header_database symbol_database symbol_name type ∨
        (verbose = true ∧
         extra_divergence types header_database symbol_database symbol_name type))) ∧
  ((∃ symbol_name symbol,
      symbols header_database !! symbol_name = Some symbol ∧
      Symbol_calculateAvailability symbol = None) →
   checkVersions verbose types header_database symbol_database = Exit 1).
Proof.
  destruct (checkVersions_spec verbose types header_database symbol_database)
    as [Hret Hexit].
  split; [done|]. intros (n & sy & Hl & Hnone). apply Hexit.
  intros Hcalc. specialize (Hcalc n sy Hl). simpl in Hcalc.
  rewrite Hnone in Hcalc. by destruct Hcalc.
Qed.

(** ** C3: the exit status *)

Lemma main_platform_dir_supplied (o : Options Arch) :
  opt_platform_dir o ≠ EmptyString → main_platform_dir o ≠ EmptyString.
Proof.
  unfold main_platform_dir, main_dirs. intros Hp.
  destruct (opt_paths o); simpl; [|done]. by rewrite bool_decide_eq_false_2.
Qed.

(** C3 (amended): for an invocation that runs the checking phase (no dump
    mode) and does not force preprocessing (no output path, or no -f), the
    exit status is 0 only if the parse phase produced no warnings or
    errors, the sanity check passed and, when a platform directory is in
    effect (the one supplied with -p or, when no path is given, the
    autodetected one), the check against the platform passed; with an
    output path and -f, a run that reaches [return failed] exits with 0
    exactly when [preprocessHeaders] succeeds, whatever the checks
    found. *)
Theorem main_exit_status (o : Options Arch) :
  opt_dump o = false →
  (opt_preprocessor_output_path o = EmptyString ∨ opt_force o = false →
   exit_status (main o) = 0 →
   main_parse_errors o = false ∧
   sanityCheck (main_declaration_database o) = true ∧
   (main_platform_dir o ≠ EmptyString →
    ∃ symbol_database,
      parsePlatforms (main_compilation_types o) (main_platform_dir o) =
        Ret symbol_database ∧
      checkVersions (opt_verbose o) (main_compilation_types o)
        (main_declaration_database o) symbol_database = Ret true)) ∧
  (opt_preprocessor_output_path o ≠ EmptyString → opt_force o = true →
   ∀ status, main o = Ret status →
     (status = 0 ↔
      preprocessHeaders (opt_preprocessor_output_path o) (main_header_dir o)
        (main_declaration_database o) = true)).
Proof.
  intros Hdump. unfold main, main_parse_errors, main_declaration_database.
  rewrite Hdump.
  pose proof (main_platform_dir_supplied o) as Hsupplied.
  destruct (compileHeaders (main_compilation_types o) (main_header_dir o)
              (main_dependency_dir o)) as [declaration_database errors].
  simpl. split.
  - intros Hforce Hstatus.
    assert (bool_decide (opt_preprocessor_output_path o ≠ EmptyString) &&
            opt_force o = false) as Hgate.
    { destruct Hforce as [-> | ->]; [done|apply andb_false_r]. }
    destruct (is_directory (main_header_dir o)); simpl in Hstatus; [|done].
    destruct (bool_decide (main_platform_dir o ≠ EmptyString)) eqn:Hplatform.
    + destruct (parsePlatforms (main_compilation_types o) (main_platform_dir o))
        as [symbol_database|status] eqn:Hparse;
        unfold mbind, outcome_bind in Hstatus; simpl in Hstatus;
        [|by apply parsePlatforms_fatal in Hparse].
      destruct (checkVersions (opt_verbose o) (main_compilation_types o)
                  declaration_database symbol_database) as [passed|status] eqn:Hcheck;
        simpl in Hstatus; [|by apply checkVersions_exit in Hcheck; subst].
      unfold mret, outcome_ret in Hstatus. simpl in Hstatus.
      destruct errors, (sanityCheck declaration_database), passed;
        simpl in Hstatus;
        destruct (bool_decide (opt_preprocessor_output_path o ≠ EmptyString)),
          (opt_force o); simpl in Hstatus, Hgate; try done;
        try (destruct (preprocessHeaders _ _ _); simpl in Hstatus; try done);
        repeat split; try done; intros _; by exists symbol_database.
    + unfold mbind, outcome_bind, mret, outcome_ret in Hstatus. simpl in Hstatus.
      apply bool_decide_eq_false in Hplatform.
      destruct errors, (sanityCheck declaration_database);
        simpl in Hstatus;
        destruct (bool_decide (opt_preprocessor_output_path o ≠ EmptyString)),
          (opt_force o); simpl in Hstatus, Hgate; try done;
        try (destruct (preprocessHeaders _ _ _); simpl in Hstatus; try done);
        repeat split; try done; intros Hp; by apply Hsupplied in Hp.
  - intros Hpath Hforce status Hmain. rewrite Hforce in Hmain.
    rewrite bool_decide_eq_true_2 in Hmain by done.
    destruct (is_directory (main_header_dir o)); simpl in Hmain; [|done].
    destruct (if bool_decide (main_platform_dir o ≠ EmptyString)
              then parsePlatforms (main_compilation_types o) (main_platform_dir o)
              else mret ∅) as [symbol_database|?];
      unfold mbind, outcome_bind in Hmain; simpl in Hmain; [|done].
    match type of Hmain with
    | match ?m with _ => _ end = _ => destruct m as [failed|?]; [|done]
    end.
    unfold mret, outcome_ret in Hmain. simpl in Hmain. injection Hmain as <-.
    by destruct (preprocessHeaders _ _ _).
Qed.

End Properties.

(** * The properties on the scenarios *)

Import Scenario.

(** The matrix of architectures {A, B} and levels {9, 21}. *)
Example matrix_elements :
  matrix = {[ mkCompilationType A 9 32; mkCompilationType A 9 64;
              mkCompilationType A 21 32; mkCompilationType A 21 64;
              mkCompilationType B 21 32; mkCompilationType B 21 64 ]}.
Proof. vm_compute. reflexivity. Qed.

Example matrix_size : size matrix = 6%nat.
Proof. vm_compute. reflexivity. Qed.

(** [foo], declared with [introduced=9] and exported from level 9 on,
    passes both checks. *)
Example foo_passes :
  sanityCheck foo_headers = true ∧
  checkVersions true matrix foo_headers foo_platform = Ret true ∧
  checkVersions true {[ A_8_32; A_9_32; A_14_32 ]} foo_headers foo_platform
    = Ret true.
Proof. repeat split; vm_compute; reflexivity. Qed.

(** The four ways in which [checkSymbol] fails. *)
Example checkSymbol_failures :
  checkSymbol twice = false ∧ checkSymbol tagged = false ∧
  checkSymbol clash = false ∧ checkSymbol mixed = false ∧
  checkSymbol foo = true.
Proof. repeat split; vm_compute; reflexivity. Qed.


(** C1, at [bar]: declared with [introduced=14], exported by the platform
    at level 9.  With verbose diagnostics the check fails. *)
Lemma checkVersions_extra_availability_witness :
  checkVersions true matrix bar_headers bar_platform = Ret false.
Proof.
  refine (proj1 (checkVersions_extra_availability matrix bar_headers
                   bar_platform _) "bar" A_9_32 _).
  - apply (bool_decide_unpack (calculable bar_headers)). vm_compute. exact I.
  - eexists bar, _, _. split; [vm_compute; reflexivity|].
    split; [vm_compute; reflexivity|]. split; [vm_compute; reflexivity|].
    split; [apply (bool_decide_unpack (_ ∈ _)); vm_compute; exact I|].
    split; vm_compute; reflexivity.
Defined.

(** C1 as stated fails at [bar] without verbose diagnostics: the
    divergence is there and the check passes. *)
Lemma checkVersions_quiet_extra_availability_passes :
  extra_divergence matrix bar_headers bar_platform "bar" A_9_32 ∧
  checkVersions false matrix bar_headers bar_platform = Ret true.
Proof.
  split; [|vm_compute; reflexivity].
  eexists bar, _, _. split; [vm_compute; reflexivity|].
  split; [vm_compute; reflexivity|]. split; [vm_compute; reflexivity|].
  split; [apply (bool_decide_unpack (_ ∈ _)); vm_compute; exact I|].
  split; vm_compute; reflexivity.
Qed.

(** C2, at the headers of [bar] and a platform that exports [gone] only:
    the set holds the names of the headers that the platform lacks. *)
Lemma checkVersions_completely_unavailable_witness :
  ∃ d, collect_divergences matrix bar_headers gone_platform = Ret d ∧
       ∀ symbol_name,
         symbol_name ∈ completely_unavailable d ↔
         is_Some (symbols bar_headers !! symbol_name) ∧
         gone_platform !! symbol_name = None.
Proof.
  eexists. split; [vm_compute; reflexivity|].
  refine (proj1 (checkVersions_completely_unavailable false matrix bar_headers
                   gone_platform _ _)).
  vm_compute. reflexivity.
Defined.

(** C2 as stated fails at [gone]: the platform exports it, no header
    declares it, and nothing is collected. *)
Lemma checkVersions_platform_only_symbol_not_collected :
  is_Some (gone_platform !! "gone") ∧
  symbols no_headers !! "gone" = None ∧
  collect_divergences matrix no_headers gone_platform =
    Ret (mkDivergences ∅ ∅ ∅).
Proof.
  split; [by eexists|]. split; vm_compute; reflexivity.
Qed.

(** C3, at a checking run that passes. *)
Lemma main_exit_status_witness :
  exit_status (main checking_run) = 0 ∧
  main_parse_errors checking_run = false ∧
  sanityCheck (main_declaration_database checking_run) = true.
Proof.
  assert (exit_status (main checking_run) = 0) as Hstatus
    by (vm_compute; reflexivity).
  split; [done|].
  pose proof (proj1 (main_exit_status checking_run eq_refl)
                (or_introl eq_refl) Hstatus) as Hchecks.
  exact (conj (proj1 Hchecks) (proj1 (proj2 Hchecks))).
Defined.

(** C3 as stated fails at a forced run: the parser reported a warning and
    the exit status is 0. *)
Lemma main_forced_run_exits_zero :
  opt_dump forced_run = false ∧
  main_parse_errors forced_run = true ∧
  exit_status (main forced_run) = 0.
Proof. repeat split; vm_compute; reflexivity. Qed.

(** C6, at [foo]. *)
Lemma should_be_available_global_introduced_witness :
  ∃ symbol_availability,
    Symbol_calculateAvailability foo = Some symbol_availability ∧
    should_be_available symbol_availability foo A_8_32 = Some false ∧
    should_be_available symbol_availability foo A_9_32 = Some true ∧
    should_be_available symbol_availability foo A_14_32 = Some true.
Proof.
  eexists. split; [vm_compute; reflexivity|].
  split; [|split].
  - refine (proj1 (should_be_available_global_introduced foo _ A_8_32
                     _ _ _ _) _);
      [vm_compute; reflexivity|reflexivity|by intros []
      |vm_compute; reflexivity|reflexivity].
  - refine (proj2 (should_be_available_global_introduced foo _ A_9_32
                     _ _ _ _) _);
      [vm_compute; reflexivity|reflexivity|by intros []
      |vm_compute; reflexivity|by left].
  - refine (proj2 (should_be_available_global_introduced foo _ A_14_32
                     _ _ _ _) _);
      [vm_compute; reflexivity|reflexivity|by intros []
      |vm_compute; reflexivity|by right].
Defined.

(** C7, at [qux]. *)
Lemma should_be_available_arch_introduced_witness :
  ∃ symbol_availability,
    Symbol_calculateAvailability qux = Some symbol_availability ∧
    should_be_available symbol_availability qux B_21_32 = Some true ∧
    should_be_available symbol_availability qux A_8_32 = Some false ∧
    should_be_available symbol_availability qux A_9_32 = Some true.
Proof.
  eexists. split; [vm_compute; reflexivity|].
  split; [|split].
  - refine (proj1 (should_be_available_arch_introduced A qux _ B_21_32
                     _ _ _ _ _) _);
      [vm_compute; reflexivity|reflexivity|reflexivity|by intros []
      |vm_compute; reflexivity|done].
  - refine (proj2 (proj1 (proj2 (should_be_available_arch_introduced A qux _
                                   A_8_32 _ _ _ _ _) _)) _);
      [vm_compute; reflexivity|reflexivity|reflexivity|by intros []
      |vm_compute; reflexivity|done|done].
  - refine (proj2 (proj2 (proj2 (should_be_available_arch_introduced A qux _
                                   A_9_32 _ _ _ _ _) _)) _);
      [vm_compute; reflexivity|reflexivity|reflexivity|by intros []
      |vm_compute; reflexivity|done|done].
Defined.

(** C8, at [later]: nothing is recorded under (A, 9, 32), although the
    platform exports the symbol there. *)
Lemma checkVersions_future_witness :
  ∃ d, collect_divergences matrix later_headers later_platform = Ret d ∧
       ¬ recorded (missing_availability d) "later" A_9_32 ∧
       ¬ recorded (extra_availability d) "later" A_9_32.
Proof.
  eexists. split; [vm_compute; reflexivity|].
  refine (proj1 (checkVersions_future A matrix later_headers later_platform
                   _ "later" later _ _ _ _ _) A_9_32 _);
    [vm_compute; reflexivity|vm_compute; reflexivity|vm_compute; reflexivity
    |reflexivity|reflexivity].
Defined.

(** C9 as stated fails at [clash]: its merged availability does not
    calculate, and the checker ends the process. *)
Lemma checkVersions_aborts_on_clash :
  symbols clash_headers !! "clash" = Some clash ∧
  Symbol_calculateAvailability clash = None ∧
  checkVersions true matrix clash_headers bar_platform = Exit 1.
Proof. repeat split; vm_compute; reflexivity. Qed.
